(** * Companies routes of express-jobly (routes/companies.js)

    A shallow embedding of the five route handlers of the companies
    router, together with the JavaScript built-ins they rely on
    (truthiness, [parseInt], [isNaN]), and the properties the handlers
    satisfy with respect to their collaborators: the schema validator,
    the [Company] model and the [ensureLoggedIn] middleware. *)

From Stdlib Require Import ZArith Lia Bool Ascii String.
From stdpp Require Import base option list strings gmap pretty.

Set Warnings "-register-all".
Local Open Scope string_scope.
Local Open Scope Z_scope.
Local Open Scope list_scope.

(** ** JavaScript values *)

(** A JavaScript Number as far as this file needs it: the result of
    [parseInt] is [NaN] or a double that holds an integer, [Int z]
    being the double of value [z].  A double holds every integer up to
    2^53 in magnitude as it is, and past that the nearest one it can
    hold (see [roundToDouble]).  Past the range of doubles JavaScript
    has Infinity, for which this type has no constructor: [parseInt]
    then leaves an [Int] of 2^1024 or more, which no double is.  The
    sign of a zero is not kept.  Statements that give the value read
    from a run of digits are made for values up to 2^53 and away
    from -0. *)
Inductive number : Type :=
  | Int (z : Z)
  | NaN.

(** JSON-like values: request bodies, query-string values, records
    returned by the model and response payloads.  A property that is
    absent from an object reads as [None] ([undefined] in JavaScript). *)
Inductive jsval : Type :=
  | JNull
  | JBool (b : bool)
  | JNumber (n : number)
  | JStr (s : string)
  | JArr (l : list jsval)
  | JObj (o : gmap string jsval).

(** Reading a property: [o.k], with [None] for [undefined]. *)
Definition prop (o : gmap string jsval) (k : string) : option jsval := o !! k.

(** [ToBoolean] on the value of a property read (the test of
    [if (req.query.minEmployees)]). *)
Definition truthy (v : option jsval) : bool :=
  match v with
  | None => false
  | Some JNull => false
  | Some (JBool b) => b
  | Some (JNumber (Int z)) => negb (z =? 0)
  | Some (JNumber NaN) => false
  | Some (JStr s) => negb (String.eqb s "")
  | Some (JArr _) => true
  | Some (JObj _) => true
  end.

(** [isNaN] on a Number. *)
Definition isNaN (n : number) : bool :=
  match n with
  | NaN => true
  | Int _ => false
  end.

(** ** [parseInt]

    [parseInt(v)] with no radix argument, after ECMAScript 2015 and later:
    the argument is converted to a string, leading white space is
    dropped, one sign is read, a [0x]/[0X] prefix selects radix 16
    (radix 10 otherwise), and the longest run of digits of that radix is
    the value; no digit at all gives [NaN]. *)

(** Strings are held as the UTF-8 bytes of the JavaScript string. *)
Definition byte (a : ascii) : Z := Z.of_N (N_of_ascii a).

(** The one-byte members of [StrWhiteSpaceChar]: TAB, LF, VT, FF, CR,
    SP. *)
Definition isWhiteSpace (a : ascii) : bool :=
  let n := Z.of_N (N_of_ascii a) in
  ((9 <=? n) && (n <=? 13)) || (n =? 32).

(** The two-byte member: U+00A0 (C2 A0). *)
Definition isWhiteSpace2 (a b : ascii) : bool :=
  (byte a =? 194) && (byte b =? 160).

(** The three-byte members: U+1680 (E1 9A 80), U+2000 to U+200A
    (E2 80 80 to E2 80 8A), the line terminators U+2028 and U+2029
    (E2 80 A8, E2 80 A9), U+202F (E2 80 AF), U+205F (E2 81 9F), U+3000
    (E3 80 80) and U+FEFF (EF BB BF). *)
Definition isWhiteSpace3 (a b c : ascii) : bool :=
  let x := byte a in
  let y := byte b in
  let z := byte c in
  ((x =? 225) && (y =? 154) && (z =? 128))
  || ((x =? 226) && (y =? 128)
      && (((128 <=? z) && (z <=? 138)) || (z =? 168) || (z =? 169) || (z =? 175)))
  || ((x =? 226) && (y =? 129) && (z =? 159))
  || ((x =? 227) && (y =? 128) && (z =? 128))
  || ((x =? 239) && (y =? 187) && (z =? 191)).

(** Drops the leading white space, one character (one to three bytes)
    at a time. *)
Fixpoint trimStart (s : string) : string :=
  match s with
  | String a r =>
      if isWhiteSpace a then trimStart r
      else
        match r with
        | String b r2 =>
            if isWhiteSpace2 a b then trimStart r2
            else
              match r2 with
              | String c r3 => if isWhiteSpace3 a b c then trimStart r3 else s
              | EmptyString => s
              end
        | EmptyString => s
        end
  | EmptyString => s
  end.

(** Value of a character as a digit: [0-9], then [a-z] and [A-Z] for
    10 to 35. *)
Definition digitValue (a : ascii) : option Z :=
  let n := Z.of_N (N_of_ascii a) in
  if (48 <=? n) && (n <=? 57) then Some (n - 48)
  else if (97 <=? n) && (n <=? 122) then Some (n - 87)
  else if (65 <=? n) && (n <=? 90) then Some (n - 55)
  else None.

Definition digitIn (R : Z) (a : ascii) : option Z :=
  match digitValue a with
  | Some d => if d <? R then Some d else None
  | None => None
  end.

(** The longest prefix of radix-[R] digits, read left to right; [acc] is
    [None] until a first digit has been read. *)
Fixpoint readDigits (R : Z) (s : string) (acc : option Z) : option Z :=
  match s with
  | String a r =>
      match digitIn R a with
      | Some d => readDigits R r (Some (default 0 acc * R + d))
      | None => acc
      end
  | EmptyString => acc
  end.

Definition readSign (s : string) : Z * string :=
  match s with
  | String a r =>
      if Ascii.eqb a "-" then (-1, r)
      else if Ascii.eqb a "+" then (1, r)
      else (1, s)
  | EmptyString => (1, s)
  end.

Definition readRadix (s : string) : Z * string :=
  match s with
  | String a (String b r) =>
      if Ascii.eqb a "0" && (Ascii.eqb b "x" || Ascii.eqb b "X") then (16, r)
      else (10, s)
  | _ => (10, s)
  end.

(** The integer [m >= 0] as a double holds it: [m] itself up to 2^53,
    and past that [m] rounded to 53 significant bits, to the nearest
    and to the even one of two that are as near. *)
Definition roundToDouble (m : Z) : Z :=
  if m <=? 2 ^ 53 then m
  else
    let shift := Z.log2 m - 52 in
    let q := Z.shiftr m shift in
    let rem := m - Z.shiftl q shift in
    let half := Z.shiftl 1 (shift - 1) in
    let q' := if (half <? rem) || ((rem =? half) && Z.odd q) then q + 1 else q in
    Z.shiftl q' shift.

Definition parseInt_string (s : string) : number :=
  let '(sign, s1) := readSign (trimStart s) in
  let '(R, s2) := readRadix s1 in
  match readDigits R s2 None with
  | Some m => Int (sign * roundToDouble m)
  | None => NaN
  end.

(** [ToString].  An array is the comma-joined conversion of its
    elements, [null] elements giving the empty string; an object is
    ["[object Object]"], which is its conversion when it has no
    [toString] key of its own (with one, the key's value being no
    function, JavaScript throws a TypeError instead; statements about
    object values are made for objects without that key).  A Number
    prints in decimal, which is what JavaScript prints for integers
    below 10^21 in magnitude. *)
Fixpoint ToString (v : jsval) : string :=
  match v with
  | JNull => "null"
  | JBool true => "true"
  | JBool false => "false"
  | JNumber (Int z) =>
      if 2 ^ 1024 <=? Z.abs z then (if z <? 0 then "-Infinity" else "Infinity")
      else pretty z
  | JNumber NaN => "NaN"
  | JStr s => s
  | JArr l =>
      (fix join (l : list jsval) : string :=
         match l with
         | [] => ""
         | x :: r =>
             let e := match x with JNull => "" | _ => ToString x end in
             match r with
             | [] => e
             | _ => e +:+ "," +:+ join r
             end
         end) l
  | JObj _ => "[object Object]"
  end.

Definition parseInt (v : jsval) : number := parseInt_string (ToString v).

Example parseInt_12abc : parseInt (JStr "12abc") = Int 12.
Proof. reflexivity. Qed.

Example parseInt_abc : parseInt (JStr "abc") = NaN.
Proof. reflexivity. Qed.

Example parseInt_hex : parseInt (JStr "0x1F") = Int 31.
Proof. reflexivity. Qed.

Example parseInt_signed : parseInt (JStr "  -42px") = Int (-42).
Proof. reflexivity. Qed.

Example parseInt_array : parseInt (JArr [JStr "7"; JStr "8"]) = Int 7.
Proof. reflexivity. Qed.

Example parseInt_rounds_to_even :
  parseInt (JStr "9007199254740993") = Int 9007199254740992
  /\ parseInt (JStr "9007199254740995") = Int 9007199254740996
  /\ parseInt (JStr "0x20000000000001") = Int 9007199254740992.
Proof. repeat split; reflexivity. Qed.


Example parseInt_no_break_space :
  parseInt (JStr (String (ascii_of_N 194) (String (ascii_of_N 160) "12"))) = Int 12.
Proof. reflexivity. Qed.


(** [parseInt] applied to a property read ([undefined] when absent). *)
Definition parseInt_prop (v : option jsval) : number :=
  match v with
  | Some x => parseInt x
  | None => parseInt_string "undefined"
  end.

(** ** Errors, requests and responses *)

(** The error classes of [../expressError] by kind; [message] is the
    constructor's argument (for [UnauthorizedError], thrown by the gate
    with no argument, the name of the kind stands for it). *)
Inductive errorKind : Type :=
  | BadRequest
  | Unauthorized
  | NotFound
  | Conflict
  | OtherError.

Record error : Type := mkError { kind : errorKind; message : jsval }.

Definition BadRequestError (msg : jsval) : error := mkError BadRequest msg.
Definition UnauthorizedError : error := mkError Unauthorized (JStr "Unauthorized").
Definition NotFoundError (msg : jsval) : error := mkError NotFound msg.

(** The three schema files required by the router. *)
Inductive schema : Type :=
  | companyNewSchema
  | companyUpdateSchema
  | companySearchFiltersSchema.

(** What the handlers read of a [jsonschema] result. *)
Record ValidationError : Type := mkValidationError { stack : string }.
Record ValidatorResult : Type :=
  mkValidatorResult { valid : bool; errors : list ValidationError }.

(** [req]: the parsed query string, the parsed body, [req.params.handle]
    (bound by the ["/:handle"] routes) and the credentials the request
    carries, if any.  [req.query] is an ordinary property holding the
    parsed object, so an assignment to one of its keys stays for the
    rest of the request. *)
Record Request : Type := mkRequest {
  query : gmap string jsval;
  body : jsval;
  handle : string;
  credentials : option string
}.

(** [res]: the status code (200 until [res.status] changes it) and the
    JSON payload sent, if any. *)
Record Response : Type := mkResponse {
  statusCode : Z;
  sent : option jsval
}.

Record ctx : Type := mkCtx { req : Request; res : Response }.

Definition freshResponse : Response := mkResponse 200 None.

(** ** Calls to the collaborators *)

Inductive event : Type :=
  | recognize (token : string)
  | jsonschema_validate (instance : jsval) (s : schema)
  | console_log (args : list (option jsval))
  | Company_create (data : jsval)
  | Company_findAll (filters : jsval)
  | Company_get (h : string)
  | Company_update (h : string) (data : jsval)
  | Company_remove (h : string).

Definition answer (e : event) : Type :=
  match e with
  | recognize _ => bool
  | jsonschema_validate _ _ => ValidatorResult
  | console_log _ => unit
  | Company_remove _ => unit
  | _ => jsval
  end.

(** A handler run as a tree of collaborator calls: each call is answered
    with a value or with the error it throws (rejects with). *)
Inductive prog (R : Type) : Type :=
  | Ret (r : R)
  | Vis (e : event) (k : error + answer e -> prog R).
Arguments Ret {R} r.
Arguments Vis {R} e k.

Inductive completion (A : Type) : Type :=
  | Normal (a : A)
  | Throw (err : error).
Arguments Normal {A} a.
Arguments Throw {A} err.

(** Handler code: reads and writes [req]/[res], calls collaborators,
    completes normally or throws.  A handler is an [async] function:
    [Throw err] is its promise rejecting with [err], which is what the
    hosting framework's error handling receives. *)
Definition M (A : Type) : Type := ctx -> prog (completion A * ctx).

Fixpoint prog_bind {R S : Type} (p : prog R) (f : R -> prog S) : prog S :=
  match p with
  | Ret r => f r
  | Vis e k => Vis e (fun a => prog_bind (k a) f)
  end.

Definition ret {A} (a : A) : M A := fun c => Ret (Normal a, c).
Definition throw {A} (err : error) : M A := fun c => Ret (Throw err, c).
Definition bind {A B} (m : M A) (f : A -> M B) : M B :=
  fun c => prog_bind (m c) (fun '(r, c') =>
    match r with
    | Normal a => f a c'
    | Throw err => Ret (Throw err, c')
    end).

#[global] Instance M_ret : MRet M := @ret.
#[global] Instance M_bind : MBind M := fun A B f m => bind m f.

(** A call with no [try]/[catch] around it: an error answer is thrown
    on. *)
Definition call (e : event) : M (answer e) :=
  fun c => Vis e (fun a =>
    match a with
    | inl err => Ret (Throw err, c)
    | inr x => Ret (Normal x, c)
    end).

Definition get_req : M Request := fun c => Ret (Normal (req c), c).

(** [req.query[k] = v], in place. *)
Definition set_query (k : string) (v : jsval) : M unit :=
  fun c =>
    let r := req c in
    Ret (Normal tt,
         mkCtx (mkRequest (<[k := v]> (query r)) (body r) (handle r) (credentials r))
               (res c)).

(** [res.status(n)] *)
Definition res_status (n : Z) : M unit :=
  fun c => Ret (Normal tt, mkCtx (req c) (mkResponse n (sent (res c)))).

(** [res.json(v)] *)
Definition res_json (v : jsval) : M unit :=
  fun c => Ret (Normal tt, mkCtx (req c) (mkResponse (statusCode (res c)) (Some v))).

(** [if (cond) { throw err }] *)
Definition throw_if (cond : bool) (err : error) : M unit :=
  if cond then throw err else ret tt.

(** [validator.errors.map(e => e.stack)] *)
Definition stacks (v : ValidatorResult) : jsval :=
  JArr (map (fun e => JStr (stack e)) (errors v)).

(** ** The handlers (routes/companies.js) *)

(** [router.post("/", ensureLoggedIn, async function ...)], the handler. *)
Definition post_handler : M unit :=
  r ← get_req;
  validator ← call (jsonschema_validate (body r) companyNewSchema);
  throw_if (negb (valid validator)) (BadRequestError (stacks validator));;
  company ← call (Company_create (body r));
  res_status 201;;
  res_json (JObj {[ "company" := company ]}).

(** [router.get("/", async function ...)].  After each assignment the
    property read by [isNaN] is the Number just stored. *)
Definition list_handler : M unit :=
  r ← get_req;
  (if truthy (prop (query r) "minEmployees") then
     let n := parseInt_prop (prop (query r) "minEmployees") in
     set_query "minEmployees" (JNumber n);;
     throw_if (isNaN n) (BadRequestError (JStr "minEmployees must be a number."))
   else ret tt);;
  r ← get_req;
  (if truthy (prop (query r) "maxEmployees") then
     let n := parseInt_prop (prop (query r) "maxEmployees") in
     set_query "maxEmployees" (JNumber n);;
     throw_if (isNaN n) (BadRequestError (JStr "maxEmployees must be a number."))
   else ret tt);;
  r ← get_req;
  call (console_log [Some (JStr "company route minEmployees: ");
                     prop (query r) "minEmployees"]);;
  validator ← call (jsonschema_validate (JObj (query r)) companySearchFiltersSchema);
  throw_if (negb (valid validator)) (BadRequestError (stacks validator));;
  companies ← call (Company_findAll (JObj (query r)));
  res_json (JObj {[ "companies" := companies ]}).

(** [router.get("/:handle", async function ...)] *)
Definition get_handler : M unit :=
  r ← get_req;
  company ← call (Company_get (handle r));
  res_json (JObj {[ "company" := company ]}).

(** [router.patch("/:handle", ensureLoggedIn, async function ...)], the
    handler. *)
Definition patch_handler : M unit :=
  r ← get_req;
  validator ← call (jsonschema_validate (body r) companyUpdateSchema);
  throw_if (negb (valid validator)) (BadRequestError (stacks validator));;
  company ← call (Company_update (handle r) (body r));
  res_json (JObj {[ "company" := company ]}).

(** [router.delete("/:handle", ensureLoggedIn, async function ...)], the
    handler. *)
Definition delete_handler : M unit :=
  r ← get_req;
  call (Company_remove (handle r));;
  res_json (JObj {[ "deleted" := JStr (handle r) ]}).

(** Modelled from the spec: [ensureLoggedIn] of [../middleware/auth],
    which is not part of the router's file.  The request must carry
    credentials recognised by the authorization collaborator; absence or
    invalidity produces an [Unauthorized] failure, otherwise the next
    handler of the route runs. *)
Definition ensureLoggedIn : M unit :=
  r ← get_req;
  match credentials r with
  | None => throw UnauthorizedError
  | Some token =>
      ok ← call (recognize token);
      throw_if (negb ok) UnauthorizedError
  end.

(** The five routes as registered on the router: the middleware listed
    before a handler runs first, on the same [req] and [res]. *)
Inductive route : Type :=
  | POST_root
  | GET_root
  | GET_handle
  | PATCH_handle
  | DELETE_handle.

Definition router (rt : route) : M unit :=
  match rt with
  | POST_root => ensureLoggedIn;; post_handler
  | GET_root => list_handler
  | GET_handle => get_handler
  | PATCH_handle => ensureLoggedIn;; patch_handler
  | DELETE_handle => ensureLoggedIn;; delete_handler
  end.

Definition mutating (rt : route) : bool :=
  match rt with
  | POST_root | PATCH_handle | DELETE_handle => true
  | GET_root | GET_handle => false
  end.

(** ** Running a handler against its collaborators *)

(** The collaborators over a backing store [DB].  The authorization
    check and the validator are pure; each [Company] method returns a
    value or the error it rejects with, and the store it leaves. *)
Record Collaborators (DB : Type) : Type := mkCollaborators {
  recognizes : string -> bool;
  validate : jsval -> schema -> ValidatorResult;
  create : jsval -> DB -> (error + jsval) * DB;
  findAll : jsval -> DB -> (error + jsval) * DB;
  get : string -> DB -> (error + jsval) * DB;
  update : string -> jsval -> DB -> (error + jsval) * DB;
  remove : string -> DB -> (error + unit) * DB
}.
Arguments recognizes {DB} _ _.
Arguments validate {DB} _ _ _.
Arguments create {DB} _ _ _.
Arguments findAll {DB} _ _ _.
Arguments get {DB} _ _ _.
Arguments update {DB} _ _ _ _.
Arguments remove {DB} _ _ _.

(** One call with the answer it received. *)
Record entry : Type := Called { ev : event; ans : error + answer ev }.


Definition is_persistence (e : event) : bool :=
  match e with
  | Company_create _ | Company_findAll _ | Company_get _
  | Company_update _ _ | Company_remove _ => true
  | _ => false
  end.

Definition is_validation (e : event) : bool :=
  match e with
  | jsonschema_validate _ _ => true
  | _ => false
  end.

(** What a request leaves behind: how the handler completed, [req] and
    [res] as it left them, the store, and the calls made in order. *)
Record result (DB : Type) : Type := mkResult {
  outcome : completion unit;
  final : ctx;
  store : DB;
  calls : list entry
}.
Arguments mkResult {DB} _ _ _ _.
Arguments outcome {DB} _.
Arguments final {DB} _.
Arguments store {DB} _.
Arguments calls {DB} _.

Definition events {DB} (r : result DB) : list event := map ev (calls r).

Section Run.
Context {DB : Type} (C : Collaborators DB).

Definition perform (e : event) (db : DB) : (error + answer e) * DB :=
  match e return (error + answer e) * DB with
  | recognize token => (inr (recognizes C token), db)
  | jsonschema_validate instance s => (inr (validate C instance s), db)
  | console_log _ => (inr tt, db)
  | Company_create data => create C data db
  | Company_findAll filters => findAll C filters db
  | Company_get h => get C h db
  | Company_update h data => update C h data db
  | Company_remove h => remove C h db
  end.

Fixpoint run (p : prog (completion unit * ctx)) (db : DB) : result DB :=
  match p with
  | Ret (o, c) => mkResult o c db []
  | Vis e k =>
      let '(a, db1) := perform e db in
      let r := run (k a) db1 in
      mkResult (outcome r) (final r) (store r) (Called e a :: calls r)
  end.

(** Serving a request on a route, with a fresh response. *)
Definition serve (rt : route) (rq : Request) (db : DB) : result DB :=
  run (router rt (mkCtx rq freshResponse)) db.
End Run.

(** ** The collaborators as the specification describes them

    The schema files, [jsonschema], [models/company] and the token check
    are not part of the router's file; this module gives them the
    behaviour the specification states, over an in-memory store. *)
Module SpecModel.

Inductive jstype : Type :=
  | TAny
  | TString
  | TNatural.

(** [TNatural] is a non-negative integer; an overflowed Number, held
    as an [Int] of 2^1024 or more, is none. *)
Definition has_type (t : jstype) (v : jsval) : bool :=
  match t, v with
  | TAny, _ => true
  | TString, JStr _ => true
  | TNatural, JNumber (Int z) => (0 <=? z) && (z <? 2 ^ 1024)
  | _, _ => false
  end.

Definition type_name (t : jstype) : string :=
  match t with
  | TAny => "any"
  | TString => "string"
  | TNatural => "integer"
  end.

Record shape : Type := mkShape {
  properties : list (string * jstype);
  required : list string
}.

(** Modelled from the spec: schemas/companyNew.json.  The body has the
    shape of a CompanyRecord: [handle] and [name] strings,
    [description] a string, [numEmployees] a non-negative integer or
    absent, [logoUrl] a string or absent. *)
Definition companyNew : shape :=
  mkShape [("handle", TString); ("name", TString); ("description", TString);
           ("numEmployees", TNatural); ("logoUrl", TString)]
          ["handle"; "name"].

(** Modelled from the spec: schemas/companyUpdate.json.  The body is
    an UpdatePatch, a partial CompanyRecord without [handle]: the
    presence of [handle] is rejected and any subset of the other
    fields is accepted, none of them required, each with the type it
    has in a CompanyRecord ([name], [description] and [logoUrl]
    strings, [numEmployees] a non-negative integer). *)
Definition companyUpdate : shape :=
  mkShape [("name", TString); ("description", TString);
           ("numEmployees", TNatural); ("logoUrl", TString)]
          [].

(** Modelled from the spec: schemas/companySearchFilters.json.
    Unknown keys are rejected and types checked: [nameLike] a string,
    [minEmployees] and [maxEmployees] integers at least 0, all
    optional. *)
Definition companySearchFilters : shape :=
  mkShape [("nameLike", TString); ("minEmployees", TNatural);
           ("maxEmployees", TNatural)]
          [].

Definition shape_of (s : schema) : shape :=
  match s with
  | companyNewSchema => companyNew
  | companyUpdateSchema => companyUpdate
  | companySearchFiltersSchema => companySearchFilters
  end.

Definition declared (sh : shape) (k : string) : option jstype :=
  snd <$> find (fun p => String.eqb (fst p) k) (properties sh).

Definition additional_errors (sh : shape) (o : gmap string jsval) : list ValidationError :=
  omap (fun '(k, _) =>
          match declared sh k with
          | Some _ => None
          | None => Some (mkValidationError
              ("instance is not allowed to have the additional property " +:+ k))
          end) (map_to_list o).

Definition type_errors (sh : shape) (o : gmap string jsval) : list ValidationError :=
  omap (fun '(k, t) =>
          match o !! k with
          | Some v =>
              if has_type t v then None
              else Some (mkValidationError
                ("instance." +:+ k +:+ " is not of a type(s) " +:+ type_name t))
          | None => None
          end) (properties sh).

Definition required_errors (sh : shape) (o : gmap string jsval) : list ValidationError :=
  omap (fun k =>
          match o !! k with
          | Some _ => None
          | None => Some (mkValidationError ("instance requires property " +:+ k))
          end) (required sh).

(** Modelled from the spec: [jsonschema.validate], returning ok or the
    ordered list of error messages. *)
Definition jsonschema_validate (instance : jsval) (s : schema) : ValidatorResult :=
  let errs :=
    match instance with
    | JObj o =>
        (additional_errors (shape_of s) o ++ type_errors (shape_of s) o
           ++ required_errors (shape_of s) o)%list
    | _ => [mkValidationError "instance is not of a type(s) object"]
    end in
  mkValidatorResult (match errs with [] => true | _ => false end) errs.
(** *** The [Company] model over an in-memory table, keyed by handle *)

Definition notFound (h : string) : error :=
  NotFoundError (JStr ("No company: " +:+ h)).

(** Modelled from the spec: [Company.create] of models/company.js.
    One record is created; a handle that already exists is a
    [Conflict]. *)
Definition Company_create (data : jsval) (db : gmap string jsval)
  : (error + jsval) * gmap string jsval :=
  match data with
  | JObj o =>
      match o !! "handle" with
      | Some (JStr h) =>
          match db !! h with
          | Some _ => (inl (mkError Conflict (JStr ("Duplicate company: " +:+ h))), db)
          | None => (inr data, <[h := data]> db)
          end
      | _ => (inl (mkError OtherError (JStr "handle missing")), db)
      end
  | _ => (inl (mkError OtherError (JStr "handle missing")), db)
  end.

Definition lower (a : ascii) : ascii :=
  let n := Z.of_N (N_of_ascii a) in
  if (65 <=? n) && (n <=? 90) then ascii_of_N (Z.to_N (n + 32)) else a.

Fixpoint lowercase (s : string) : string :=
  match s with
  | String a r => String (lower a) (lowercase r)
  | EmptyString => EmptyString
  end.

Definition field (k : string) (r : jsval) : option jsval :=
  match r with
  | JObj o => o !! k
  | _ => None
  end.

Definition name_like (pat : string) (r : jsval) : bool :=
  match field "name" r with
  | Some (JStr n) =>
      match String.index 0 (lowercase pat) (lowercase n) with
      | Some _ => true
      | None => false
      end
  | _ => false
  end.

Definition employees_at_least (m : Z) (r : jsval) : bool :=
  match field "numEmployees" r with
  | Some (JNumber (Int n)) => m <=? n
  | _ => false
  end.

Definition employees_at_most (m : Z) (r : jsval) : bool :=
  match field "numEmployees" r with
  | Some (JNumber (Int n)) => n <=? m
  | _ => false
  end.

Definition keep (f : gmap string jsval) (r : jsval) : bool :=
  match f !! "nameLike" with
  | Some (JStr pat) => name_like pat r
  | _ => true
  end
  && match f !! "minEmployees" with
     | Some (JNumber (Int m)) => employees_at_least m r
     | _ => true
     end
  && match f !! "maxEmployees" with
     | Some (JNumber (Int m)) => employees_at_most m r
     | _ => true
     end.

(** Modelled from the spec: [Company.findAll].  The records matching
    the filters, in the table's order; an empty filter object means no
    filtering.  The table is left as it is. *)
Definition Company_findAll (filters : jsval) (db : gmap string jsval)
  : (error + jsval) * gmap string jsval :=
  let all := map snd (map_to_list db) in
  match filters with
  | JObj f => (inr (JArr (List.filter (keep f) all)), db)
  | _ => (inr (JArr all), db)
  end.

(** Modelled from the spec: [Company.get].  The record with its
    [jobs] sequence attached, or [NotFound] when no record matches.
    No job is stored by this table, so the sequence is empty. *)
Definition Company_get (h : string) (db : gmap string jsval)
  : (error + jsval) * gmap string jsval :=
  match db !! h with
  | Some (JObj o) => (inr (JObj (<["jobs" := JArr []]> o)), db)
  | Some v => (inr v, db)
  | None => (inl (notFound h), db)
  end.

(** Modelled from the spec: [Company.update].  The fields of the
    patch replace those of the record; [NotFound] when the handle does
    not exist. *)
Definition Company_update (h : string) (data : jsval) (db : gmap string jsval)
  : (error + jsval) * gmap string jsval :=
  match db !! h with
  | Some (JObj o) =>
      let o' := match data with JObj p => p ∪ o | _ => o end in
      (inr (JObj o'), <[h := JObj o']> db)
  | Some v => (inr v, db)
  | None => (inl (notFound h), db)
  end.

(** Modelled from the spec: [Company.remove].  The record is removed;
    [NotFound] when the handle is absent, also when it was removed
    before. *)
Definition Company_remove (h : string) (db : gmap string jsval)
  : (error + unit) * gmap string jsval :=
  match db !! h with
  | Some _ => (inr tt, delete h db)
  | None => (inl (notFound h), db)
  end.

(** The collaborators of the specification, for a set of recognised
    credentials. *)
Definition collaborators (tokens : gset string) : Collaborators (gmap string jsval) :=
  mkCollaborators (gmap string jsval)
    (fun t => bool_decide (t ∈ tokens))
    jsonschema_validate
    Company_create Company_findAll Company_get Company_update Company_remove.
End SpecModel.

(** ** What each route does, for any collaborators *)

(** The two filter bounds the list handler coerces. *)
Definition bounds : list string := ["minEmployees"; "maxEmployees"].

(** The message of the coercion failure for bound [k]. *)
Definition must_be_a_number (k : string) : error :=
  BadRequestError (JStr (k +:+ " must be a number.")).

(** The coercion of bound [k] fails: the value is truthy and [parseInt]
    gives [NaN]. *)
Definition coercion_fails (k : string) (q : gmap string jsval) : bool :=
  truthy (q !! k) && isNaN (parseInt_prop (q !! k)).

(** The query object after the coercion of bound [k]. *)
Definition coerce (k : string) (q : gmap string jsval) : gmap string jsval :=
  if truthy (q !! k) then <[k := JNumber (parseInt_prop (q !! k))]> q else q.

(** The query object after both coercions, in the handler's order. *)
Definition coerced (q : gmap string jsval) : gmap string jsval :=
  coerce "maxEmployees" (coerce "minEmployees" q).

Definition with_query (rq : Request) (q : gmap string jsval) : Request :=
  mkRequest q (body rq) (handle rq) (credentials rq).

(** The request carries credentials the authorization collaborator
    recognises. *)
Definition authorized {DB} (C : Collaborators DB) (rq : Request) : bool :=
  match credentials rq with
  | Some token => recognizes C token
  | None => false
  end.

(** The calls [ensureLoggedIn] makes. *)
Definition auth_events (rq : Request) : list event :=
  match credentials rq with
  | Some token => [recognize token]
  | None => []
  end.

(** Unfolds a route down to its calls. *)
Ltac unfold_route :=
  unfold serve, router, post_handler, list_handler, get_handler, patch_handler,
    delete_handler, ensureLoggedIn, mbind, M_bind, bind, call, get_req,
    set_query, res_status, res_json, throw_if, throw, ret, prop;
  cbn -[lookup insert singletonM].

Ltac step := cbn -[lookup insert singletonM].

Section Routes.
Context {DB : Type} (C : Collaborators DB).

Lemma with_query_id rq : with_query rq (query rq) = rq.
Proof. by destruct rq. Qed.

Lemma serve_list_min_fails rq db :
  coercion_fails "minEmployees" (query rq) = true ->
  serve C GET_root rq db =
    mkResult (Throw (must_be_a_number "minEmployees"))
      (mkCtx (with_query rq (coerce "minEmployees" (query rq))) freshResponse)
      db [].
Proof.
  unfold coercion_fails, coerce. intros [Ht Hn]%andb_prop.
  unfold_route. rewrite Ht. step. rewrite Hn. reflexivity.
Qed.

Lemma coerce_other k k' q : k ≠ k' -> coerce k q !! k' = q !! k'.
Proof.
  intros Hne. unfold coerce. destruct (truthy (q !! k)); [|done].
  by rewrite lookup_insert_ne.
Qed.

Lemma coerce_same_truthy k q :
  truthy (q !! k) = true ->
  coerce k q !! k = Some (JNumber (parseInt_prop (q !! k))).
Proof. intros Ht. unfold coerce. rewrite Ht. apply lookup_insert_eq. Qed.

Lemma coerce_same_falsy k q : truthy (q !! k) = false -> coerce k q = q.
Proof. intros Ht. unfold coerce. by rewrite Ht. Qed.

Lemma serve_list_max_fails rq db :
  coercion_fails "minEmployees" (query rq) = false ->
  coercion_fails "maxEmployees" (query rq) = true ->
  serve C GET_root rq db =
    mkResult (Throw (must_be_a_number "maxEmployees"))
      (mkCtx (with_query rq (coerced (query rq))) freshResponse)
      db [].
Proof.
  unfold coercion_fails, coerced. intros Hmin [Ht Hn]%andb_prop.
  unfold coerce at 1. rewrite coerce_other by done. rewrite Ht.
  unfold coerce. unfold_route.
  destruct (truthy (query rq !! "minEmployees")); step.
  - cbn in Hmin. rewrite Hmin. step.
    rewrite lookup_insert_ne by done. rewrite Ht. step. rewrite Hn.
    reflexivity.
  - rewrite Ht. step. rewrite Hn. reflexivity.
Qed.

(** The list handler once both coercions have passed. *)
Definition list_after_coercion (rq : Request) (db : DB) : result DB :=
  let q' := coerced (query rq) in
  let c' := mkCtx (with_query rq q') freshResponse in
  let v := validate C (JObj q') companySearchFiltersSchema in
  let logged :=
    Called (console_log [Some (JStr "company route minEmployees: ");
                         q' !! "minEmployees"]) (inr tt) in
  let validated :=
    Called (jsonschema_validate (JObj q') companySearchFiltersSchema) (inr v) in
  if valid v then
    let found := Called (Company_findAll (JObj q')) (fst (findAll C (JObj q') db)) in
    match fst (findAll C (JObj q') db) with
    | inr companies =>
        mkResult (Normal tt)
          (mkCtx (with_query rq q')
                 (mkResponse 200 (Some (JObj {[ "companies" := companies ]}))))
          (snd (findAll C (JObj q') db)) [logged; validated; found]
    | inl err =>
        mkResult (Throw err) c' (snd (findAll C (JObj q') db))
          [logged; validated; found]
    end
  else mkResult (Throw (BadRequestError (stacks v))) c' db [logged; validated].

Lemma serve_list_passes rq db :
  coercion_fails "minEmployees" (query rq) = false ->
  coercion_fails "maxEmployees" (query rq) = false ->
  serve C GET_root rq db = list_after_coercion rq db.
Proof.
  destruct rq as [q b h cr].
  unfold coercion_fails, list_after_coercion, coerced. cbn [query]. intros Hmin Hmax.
  unfold coerce at 1 3 5 7 9 11 13 15 17. rewrite coerce_other by done.
  unfold coerce. unfold_route.
  destruct (truthy (q !! "minEmployees")); step;
    [cbn in Hmin; rewrite Hmin; step; rewrite lookup_insert_ne by done|];
    (destruct (truthy (q !! "maxEmployees")); step;
     [cbn in Hmax; rewrite Hmax; step|]);
    unfold with_query; step;
    (destruct (valid (validate C _ _)); step; [|reflexivity]);
    (destruct (findAll C _ db) as [[err|companies] db']; reflexivity).
Qed.
End Routes.

(** The calls [ensureLoggedIn] makes, with their answers. *)
Definition auth_calls {DB} (C : Collaborators DB) (rq : Request) : list entry :=
  match credentials rq with
  | Some token => [Called (recognize token) (inr (recognizes C token))]
  | None => []
  end.

Section Gate.
Context {DB : Type} (C : Collaborators DB).

Lemma events_auth_calls rq : map ev (auth_calls C rq) = auth_events rq.
Proof. unfold auth_calls, auth_events. by destruct (credentials rq). Qed.

(** A mutating route stops at the gate when the credentials are
    missing or not recognised. *)
Lemma serve_unauthorized rt rq db :
  mutating rt = true ->
  authorized C rq = false ->
  serve C rt rq db =
    mkResult (Throw UnauthorizedError) (mkCtx rq freshResponse) db (auth_calls C rq).
Proof.
  unfold authorized, auth_calls. intros Hm Ha.
  destruct rt; try discriminate Hm; unfold_route;
    (destruct (credentials rq) as [token|]; step; [rewrite Ha|]; reflexivity).
Qed.

(** Past the gate, a mutating route is its handler, after the call of
    the gate. *)
Lemma serve_authorized_post rq db :
  authorized C rq = true ->
  serve C POST_root rq db =
    let r := run C (post_handler (mkCtx rq freshResponse)) db in
    mkResult (outcome r) (final r) (store r) (auth_calls C rq ++ calls r).
Proof.
  unfold authorized, auth_calls. intros Ha.
  unfold serve, router, ensureLoggedIn, mbind, M_bind, bind, call, get_req,
    throw_if, throw, ret. step.
  destruct (credentials rq) as [token|]; [|discriminate]. step.
  rewrite Ha. reflexivity.
Qed.


Lemma serve_authorized_delete rq db :
  authorized C rq = true ->
  serve C DELETE_handle rq db =
    let r := run C (delete_handler (mkCtx rq freshResponse)) db in
    mkResult (outcome r) (final r) (store r) (auth_calls C rq ++ calls r).
Proof.
  unfold authorized, auth_calls. intros Ha.
  unfold serve, router, ensureLoggedIn, mbind, M_bind, bind, call, get_req,
    throw_if, throw, ret. step.
  destruct (credentials rq) as [token|]; [|discriminate]. step.
  rewrite Ha. reflexivity.
Qed.
End Gate.

(** ** The routes' contracts *)

Definition company_payload (company : jsval) : jsval := JObj {[ "company" := company ]}.

(** Sample data for the instances below. *)
Definition acme : jsval :=
  JObj {[ "handle" := JStr "acme"; "name" := JStr "Acme";
          "numEmployees" := JNumber (Int 10) ]}.

Definition sampleCollaborators : Collaborators (gmap string jsval) :=
  SpecModel.collaborators {[ "token-of-u1" ]}.

Definition sampleStore : gmap string jsval := {[ "acme" := acme ]}.

(** C2. On each of the three mutating routes (POST /, PATCH /:handle,
    DELETE /:handle), a request whose credentials are absent or not
    recognised fails with Unauthorized at the gate: the only call made
    is the gate's own check, so no validation and no persistence call
    happens, and the store, the request and the response are as they
    were. *)
Theorem C2_unauthorized_before_validation_and_persistence
    {DB} (C : Collaborators DB) (rt : route) (rq : Request) (db : DB) :
  mutating rt = true ->
  authorized C rq = false ->
  let r := serve C rt rq db in
  outcome r = Throw UnauthorizedError
  /\ kind UnauthorizedError = Unauthorized
  /\ events r = auth_events rq
  /\ Forall (fun e => is_validation e = false /\ is_persistence e = false) (events r)
  /\ store r = db
  /\ final r = mkCtx rq freshResponse.
Proof.
  intros Hm Ha r. subst r. rewrite serve_unauthorized by done.
  unfold events. cbn [outcome calls store final].
  rewrite events_auth_calls.
  repeat split. unfold auth_events.
  destruct (credentials rq); repeat constructor.
Qed.

Lemma C2_unauthorized_witness :
  events (serve sampleCollaborators PATCH_handle
            (mkRequest ∅ (JObj {[ "name" := JStr "Other" ]}) "acme" (Some "forged"))
            sampleStore)
  = [recognize "forged"].
Proof.
  exact (proj1 (proj2 (proj2
    (C2_unauthorized_before_validation_and_persistence sampleCollaborators
       PATCH_handle
       (mkRequest ∅ (JObj {[ "name" := JStr "Other" ]}) "acme" (Some "forged"))
       sampleStore eq_refl eq_refl)))).
Defined.

(** C5. POST /companies with an authenticated caller.  When the body
    violates the new-company schema the handler fails with BadRequest
    carrying the validator's error messages in their order, and
    Company.create is not called; when the body is valid,
    Company.create(body) is called and the record it returns is sent
    with status 201 (an error it rejects with is thrown on). *)
Theorem C5_create_validates_then_persists
    {DB} (C : Collaborators DB) (rq : Request) (db : DB) :
  authorized C rq = true ->
  let r := serve C POST_root rq db in
  let v := validate C (body rq) companyNewSchema in
  (valid v = false ->
     outcome r = Throw (BadRequestError (JArr (map (fun e => JStr (stack e)) (errors v))))
     /\ events r = auth_events rq ++ [jsonschema_validate (body rq) companyNewSchema]
     /\ store r = db)
  /\ (valid v = true ->
     events r = auth_events rq ++
                [jsonschema_validate (body rq) companyNewSchema;
                 Company_create (body rq)]
     /\ store r = snd (create C (body rq) db)
     /\ match fst (create C (body rq) db) with
        | inr company =>
            outcome r = Normal tt
            /\ res (final r) = mkResponse 201 (Some (company_payload company))
        | inl err => outcome r = Throw err /\ sent (res (final r)) = None
        end).
Proof.
  intros Ha r v. subst r v. rewrite serve_authorized_post by done.
  unfold events. cbn [outcome calls store final]. rewrite map_app, events_auth_calls.
  unfold_route. split; intros Hv; rewrite Hv; step.
  - done.
  - destruct (create C (body rq) db) as [[err|company] db']; done.
Qed.

Lemma C5_create_witness :
  let r := serve sampleCollaborators POST_root
             (mkRequest ∅ acme "" (Some "token-of-u1")) ∅ in
  outcome r = Normal tt
  /\ res (final r) = mkResponse 201 (Some (company_payload acme)).
Proof.
  exact (proj2 (proj2 (proj2
    (C5_create_validates_then_persists sampleCollaborators
       (mkRequest ∅ acme "" (Some "token-of-u1")) ∅ eq_refl) eq_refl))).
Defined.

(** C6. GET /companies/:handle makes exactly one call, Company.get(handle):
    no authorization check and no validation.  The company it returns
    (jobs included, as returned) is sent with status 200; an error it
    rejects with, NotFound in particular, is thrown on as it is. *)
Theorem C6_get_calls_persistence_directly
    {DB} (C : Collaborators DB) (rq : Request) (db : DB) :
  let r := serve C GET_handle rq db in
  events r = [Company_get (handle rq)]
  /\ store r = snd (get C (handle rq) db)
  /\ req (final r) = rq
  /\ match fst (get C (handle rq) db) with
     | inr company =>
         outcome r = Normal tt
         /\ res (final r) = mkResponse 200 (Some (company_payload company))
     | inl err => outcome r = Throw err /\ res (final r) = freshResponse
     end.
Proof.
  unfold events. unfold_route.
  destruct (get C (handle rq) db) as [[err|company] db']; done.
Qed.

Lemma C6_witness :
  let rq := mkRequest ∅ JNull "ghost" None in
  events (serve sampleCollaborators GET_handle rq sampleStore) = [Company_get "ghost"]
  /\ outcome (serve sampleCollaborators GET_handle rq sampleStore)
     = Throw (SpecModel.notFound "ghost").
Proof.
  intros rq.
  pose (H := C6_get_calls_persistence_directly sampleCollaborators rq sampleStore).
  split.
  - exact (proj1 H).
  - exact (proj1 (proj2 (proj2 (proj2 H)))).
Defined.

(** *** The update schema of the specification *)









Example update_schema_checks_types :
  valid (SpecModel.jsonschema_validate (JObj {[ "numEmployees" := JStr "many" ]})
           companyUpdateSchema) = false.
Proof. reflexivity. Qed.



Definition deleted_payload (h : string) : jsval := JObj {[ "deleted" := JStr h ]}.

(** DELETE /:handle past the gate, for any persistence collaborator. *)
Lemma serve_delete_authorized {DB} (C : Collaborators DB) (rq : Request) (db : DB) :
  authorized C rq = true ->
  let r := serve C DELETE_handle rq db in
  events r = auth_events rq ++ [Company_remove (handle rq)]
  /\ store r = snd (remove C (handle rq) db)
  /\ match fst (remove C (handle rq) db) with
     | inr _ =>
         outcome r = Normal tt
         /\ res (final r) = mkResponse 200 (Some (deleted_payload (handle rq)))
     | inl err => outcome r = Throw err /\ sent (res (final r)) = None
     end.
Proof.
  intros Ha r. subst r. rewrite serve_authorized_delete by done.
  unfold events. cbn [outcome calls store final]. rewrite map_app, events_auth_calls.
  unfold_route.
  destruct (remove C (handle rq) db) as [[err|[]] db']; done.
Qed.

(** DELETE /:handle past the gate, with the model of the specification. *)
Lemma spec_delete (tokens : gset string) (rq : Request) (db : gmap string jsval) :
  authorized (SpecModel.collaborators tokens) rq = true ->
  let r := serve (SpecModel.collaborators tokens) DELETE_handle rq db in
  match db !! handle rq with
  | Some _ =>
      outcome r = Normal tt /\ store r = delete (handle rq) db
      /\ res (final r) = mkResponse 200 (Some (deleted_payload (handle rq)))
  | None =>
      outcome r = Throw (SpecModel.notFound (handle rq)) /\ store r = db
      /\ sent (res (final r)) = None
  end.
Proof.
  intros Ha r. subst r.
  destruct (serve_delete_authorized _ rq db Ha) as (_ & Hs & Ho).
  revert Hs Ho. generalize (serve (SpecModel.collaborators tokens) DELETE_handle rq db).
  intros r. cbn [remove SpecModel.collaborators]. unfold SpecModel.Company_remove.
  destruct (db !! handle rq); cbn [fst snd]; intros Hs [Ho Hr]; by repeat split.
Qed.

(** C7. DELETE /companies/:handle with an authenticated caller calls
    Company.remove(handle); when it succeeds the response is
    { deleted: handle } with status 200, the handle being the path
    parameter, and when it rejects the error is thrown on.  With the
    Company model of the specification, a handle that does not exist
    gives NotFound and leaves the store alone, and deleting a handle a
    second time gives NotFound as well. *)
Theorem C7_delete_echoes_handle_and_propagates_not_found :
  (forall DB (C : Collaborators DB) (rq : Request) (db : DB),
     authorized C rq = true ->
     let r := serve C DELETE_handle rq db in
     events r = auth_events rq ++ [Company_remove (handle rq)]
     /\ store r = snd (remove C (handle rq) db)
     /\ match fst (remove C (handle rq) db) with
        | inr _ =>
            outcome r = Normal tt
            /\ res (final r) = mkResponse 200 (Some (deleted_payload (handle rq)))
        | inl err => outcome r = Throw err /\ sent (res (final r)) = None
        end)
  /\ (forall (tokens : gset string) (rq : Request) (db : gmap string jsval),
        let C := SpecModel.collaborators tokens in
        authorized C rq = true ->
        (db !! handle rq = None ->
           let r := serve C DELETE_handle rq db in
           outcome r = Throw (SpecModel.notFound (handle rq))
           /\ kind (SpecModel.notFound (handle rq)) = NotFound
           /\ store r = db
           /\ sent (res (final r)) = None)
        /\ (is_Some (db !! handle rq) ->
           let r1 := serve C DELETE_handle rq db in
           let r2 := serve C DELETE_handle rq (store r1) in
           outcome r1 = Normal tt
           /\ store r1 = delete (handle rq) db
           /\ outcome r2 = Throw (SpecModel.notFound (handle rq))
           /\ store r2 = store r1
           /\ sent (res (final r2)) = None)).
Proof.
  split; [intros; by apply serve_delete_authorized|].
  intros tokens rq db C Ha. split.
  - intros Hnone r. subst r.
    pose proof (spec_delete tokens rq db Ha) as H. rewrite Hnone in H.
    destruct H as (? & ? & ?). by repeat split.
  - intros [v Hv] r1 r2. subst r1 r2.
    pose proof (spec_delete tokens rq db Ha) as H1. rewrite Hv in H1.
    destruct H1 as (Ho1 & Hs1 & _). fold C in Ho1, Hs1.
    pose proof (spec_delete tokens rq (delete (handle rq) db) Ha) as H2.
    rewrite lookup_delete_eq in H2. destruct H2 as (Ho2 & Hs2 & Hr2).
    fold C in Ho2, Hs2, Hr2. rewrite Hs1. by repeat split.
Qed.

Lemma C7_delete_witness :
  let rq := mkRequest ∅ JNull "acme" (Some "token-of-u1") in
  res (final (serve sampleCollaborators DELETE_handle rq sampleStore))
    = mkResponse 200 (Some (deleted_payload "acme"))
  /\ outcome (serve sampleCollaborators DELETE_handle rq ∅)
     = Throw (SpecModel.notFound "acme")
  /\ outcome (serve sampleCollaborators DELETE_handle rq
               (store (serve sampleCollaborators DELETE_handle rq sampleStore)))
     = Throw (SpecModel.notFound "acme").
Proof.
  intros rq. split; [|split].
  - exact (proj2 (proj2 (proj2
      (proj1 C7_delete_echoes_handle_and_propagates_not_found
         _ sampleCollaborators rq sampleStore eq_refl)))).
  - exact (proj1 (proj1
      (proj2 C7_delete_echoes_handle_and_propagates_not_found
         {[ "token-of-u1" ]} rq ∅ eq_refl) eq_refl)).
  - exact (proj1 (proj2 (proj2 (proj2
      (proj2 C7_delete_echoes_handle_and_propagates_not_found
         {[ "token-of-u1" ]} rq sampleStore eq_refl) (ex_intro _ acme eq_refl))))).
Defined.

(** ** The list route: coercion of the bounds *)

(** *** Decimal prefixes, as a reader of the query string sees them *)















Lemma truthy_string s : s <> "" -> truthy (Some (JStr s)) = true.
Proof.
  intros Hne. cbn. apply negb_true_iff, String.eqb_neq. done.
Qed.

Lemma parseInt_number_not_empty s z : parseInt_string s = Int z -> s <> "".
Proof. intros H ->. discriminate H. Qed.

Lemma elem_of_bounds k : k ∈ bounds <-> k = "minEmployees" \/ k = "maxEmployees".
Proof. unfold bounds. rewrite !elem_of_cons, elem_of_nil. tauto. Qed.

Section ListRoute.
Context {DB : Type} (C : Collaborators DB).

Lemma calls_after_coercion_not_nil rq db : calls (list_after_coercion C rq db) <> [].
Proof.
  unfold list_after_coercion. cbv zeta.
  destruct (valid _); [destruct (fst (findAll C _ db))|]; done.
Qed.


(** A failure with the message of bound [k] and no call made comes
    from the coercion of [k], that is from a truthy value on which
    [parseInt] gives [NaN]. *)
Lemma coercion_error_origin rq db k :
  k ∈ bounds ->
  outcome (serve C GET_root rq db) = Throw (must_be_a_number k) ->
  calls (serve C GET_root rq db) = [] ->
  coercion_fails k (query rq) = true.
Proof.
  intros Hk Ho Hc.
  destruct (coercion_fails "minEmployees" (query rq)) eqn:Hmin.
  - rewrite serve_list_min_fails in Ho by done. cbn [outcome] in Ho.
    apply elem_of_bounds in Hk as [-> | ->]; [done|discriminate Ho].
  - destruct (coercion_fails "maxEmployees" (query rq)) eqn:Hmax.
    + rewrite serve_list_max_fails in Ho by done. cbn [outcome] in Ho.
      apply elem_of_bounds in Hk as [-> | ->]; [discriminate Ho|done].
    + rewrite serve_list_passes in Hc by done.
      by apply calls_after_coercion_not_nil in Hc.
Qed.

(** When the coercion of [k] passes, the route does not fail with the
    message of [k] before any call. *)
Lemma coercion_passes_no_error rq db k :
  k ∈ bounds ->
  coercion_fails k (query rq) = false ->
  ~ (outcome (serve C GET_root rq db) = Throw (must_be_a_number k)
     /\ calls (serve C GET_root rq db) = []).
Proof.
  intros Hk Hpass [Ho Hc]. pose proof (coercion_error_origin rq db k Hk Ho Hc).
  congruence.
Qed.

End ListRoute.

(** *** The query object after the coercions *)

Lemma coerced_truthy k (q : gmap string jsval) :
  k ∈ bounds -> truthy (q !! k) = true ->
  coerced q !! k = Some (JNumber (parseInt_prop (q !! k))).
Proof.
  unfold coerced. intros [-> | ->]%elem_of_bounds Ht.
  - rewrite coerce_other by done. by apply coerce_same_truthy.
  - rewrite <- (coerce_other "minEmployees" "maxEmployees" q) by done.
    apply coerce_same_truthy. by rewrite coerce_other.
Qed.

Lemma coerced_falsy k (q : gmap string jsval) :
  k ∈ bounds -> truthy (q !! k) = false -> coerced q !! k = q !! k.
Proof.
  unfold coerced. intros [-> | ->]%elem_of_bounds Ht.
  - rewrite coerce_other by done. by rewrite coerce_same_falsy.
  - rewrite coerce_same_falsy by (by rewrite coerce_other).
    by rewrite coerce_other.
Qed.

Lemma coerced_other k (q : gmap string jsval) : k ∉ bounds -> coerced q !! k = q !! k.
Proof.
  rewrite elem_of_bounds. intros Hk. unfold coerced.
  rewrite !coerce_other; [done|intros <-; tauto..].
Qed.


(** *** C1 *)





(** *** C9 *)





(** *** C4 *)

Definition companies_payload (companies : jsval) : jsval :=
  JObj {[ "companies" := companies ]}.

Lemma coerced_two_numeric_strings (q : gmap string jsval) s1 s2 a b :
  q !! "minEmployees" = Some (JStr s1) ->
  q !! "maxEmployees" = Some (JStr s2) ->
  parseInt (JStr s1) = Int a ->
  parseInt (JStr s2) = Int b ->
  coercion_fails "minEmployees" q = false
  /\ coercion_fails "maxEmployees" q = false
  /\ coerced q = <["maxEmployees" := JNumber (Int b)]>
                   (<["minEmployees" := JNumber (Int a)]> q).
Proof.
  intros Hq1 Hq2 Hp1 Hp2.
  assert (truthy (Some (JStr s1)) = true) as Ht1
    by (apply truthy_string; by eapply parseInt_number_not_empty).
  assert (truthy (Some (JStr s2)) = true) as Ht2
    by (apply truthy_string; by eapply parseInt_number_not_empty).
  unfold coercion_fails, coerced. rewrite Hq1, Hq2. cbn [parseInt_prop].
  rewrite Hp1, Hp2, !andb_false_r. repeat split.
  unfold coerce at 2. rewrite Hq1, Ht1. unfold coerce.
  rewrite lookup_insert_ne by done. rewrite Hq2, Ht2. cbn [parseInt_prop].
  by rewrite Hp1, Hp2.
Qed.

(** C4. On GET /companies with both bounds present and numeric and
    minEmployees above maxEmployees, the handler raises no failure of
    its own: neither coercion fails, the order of the two bounds is
    never looked at, and the outcome is decided by the schema
    validation alone; when the coerced filters are valid they are
    handed to Company.findAll as they are, and its result is sent. *)
Theorem C4_min_above_max_not_rejected
    {DB} (C : Collaborators DB) (rq : Request) (db : DB) (s1 s2 : string) (a b : Z) :
  query rq !! "minEmployees" = Some (JStr s1) ->
  query rq !! "maxEmployees" = Some (JStr s2) ->
  parseInt (JStr s1) = Int a ->
  parseInt (JStr s2) = Int b ->
  a > b ->
  let r := serve C GET_root rq db in
  let q' := <["maxEmployees" := JNumber (Int b)]>
              (<["minEmployees" := JNumber (Int a)]> (query rq)) in
  let v := validate C (JObj q') companySearchFiltersSchema in
  (forall k, k ∈ bounds -> ~ (outcome r = Throw (must_be_a_number k) /\ calls r = []))
  /\ (valid v = true ->
        events r =
          [console_log [Some (JStr "company route minEmployees: ");
                        Some (JNumber (Int a))];
           jsonschema_validate (JObj q') companySearchFiltersSchema;
           Company_findAll (JObj q')]
        /\ store r = snd (findAll C (JObj q') db)
        /\ match fst (findAll C (JObj q') db) with
           | inr companies =>
               outcome r = Normal tt
               /\ res (final r) = mkResponse 200 (Some (companies_payload companies))
           | inl err => outcome r = Throw err
           end)
  /\ (valid v = false ->
        outcome r = Throw (BadRequestError (stacks v))
        /\ events r =
             [console_log [Some (JStr "company route minEmployees: ");
                           Some (JNumber (Int a))];
              jsonschema_validate (JObj q') companySearchFiltersSchema]).
Proof.
  intros Hq1 Hq2 Hp1 Hp2 Hab r q' v. subst r v.
  destruct (coerced_two_numeric_strings _ _ _ _ _ Hq1 Hq2 Hp1 Hp2)
    as (Hmin & Hmax & Hq').
  fold q' in Hq'.
  assert (q' !! "minEmployees" = Some (JNumber (Int a))) as Hq'min.
  { unfold q'. rewrite lookup_insert_ne by done. apply lookup_insert_eq. }
  split; [|split].
  - intros k [-> | ->]%elem_of_bounds; by apply coercion_passes_no_error;
      [apply elem_of_bounds; tauto|].
  - intros Hv. rewrite serve_list_passes by done.
    unfold list_after_coercion, events. cbv zeta. rewrite Hq', Hv, Hq'min.
    destruct (findAll C (JObj q') db) as [[err|companies] db']; done.
  - intros Hv. rewrite serve_list_passes by done.
    unfold list_after_coercion, events. cbv zeta. rewrite Hq', Hv, Hq'min. done.
Qed.

Lemma C4_witness :
  let rq := mkRequest {[ "minEmployees" := JStr "20"; "maxEmployees" := JStr "3" ]}
              JNull "" None in
  outcome (serve sampleCollaborators GET_root rq sampleStore) = Normal tt
  /\ res (final (serve sampleCollaborators GET_root rq sampleStore))
     = mkResponse 200 (Some (companies_payload (JArr []))).
Proof.
  intros rq.
  exact (proj2 (proj2 (proj1 (proj2
    (C4_min_above_max_not_rejected sampleCollaborators rq sampleStore "20" "3" 20 3
       eq_refl eq_refl eq_refl eq_refl eq_refl)) eq_refl))).
Defined.

(** *** C10 *)




(** *** C8 *)

Ltac pick_index i H :=
  repeat (destruct i as [|i]; cbn in H; [injection H as <-|]); try discriminate H.







(** ** Further properties of the routes *)

(** Splits a run of route [rt] into the cases its collaborators'
    answers decide, and hands each case to [tac]. *)
Ltac route_cases C rq db rt tac :=
  destruct rt;
  [ unfold_route; destruct (credentials rq) as [token|]; [|tac];
    step; destruct (recognizes C token) eqn:R; [|tac];
    step; destruct (valid (validate C (body rq) companyNewSchema)) eqn:V; [|tac];
    step; destruct (create C (body rq) db) as [[err|company] db'] eqn:E; tac
  | destruct (coercion_fails "minEmployees" (query rq)) eqn:Hmin;
      [rewrite serve_list_min_fails by done; tac|];
    destruct (coercion_fails "maxEmployees" (query rq)) eqn:Hmax;
      [rewrite serve_list_max_fails by done; tac|];
    rewrite serve_list_passes by done; unfold list_after_coercion; cbv zeta;
    destruct (valid (validate C _ _)) eqn:V; [|tac];
    destruct (findAll C _ db) as [[err|companies] db'] eqn:E; tac
  | unfold_route; destruct (get C (handle rq) db) as [[err|company] db'] eqn:E; tac
  | unfold_route; destruct (credentials rq) as [token|]; [|tac];
    step; destruct (recognizes C token) eqn:R; [|tac];
    step; destruct (valid (validate C (body rq) companyUpdateSchema)) eqn:V; [|tac];
    step; destruct (update C (handle rq) (body rq) db) as [[err|company] db'] eqn:E; tac
  | unfold_route; destruct (credentials rq) as [token|]; [|tac];
    step; destruct (recognizes C token) eqn:R; [|tac];
    step; destruct (remove C (handle rq) db) as [[err|[]] db'] eqn:E; tac ].

(** The key under which a route sends its result. *)
Definition envelope_key (rt : route) : string :=
  match rt with
  | GET_root => "companies"
  | DELETE_handle => "deleted"
  | _ => "company"
  end.

(** The status a route answers with. *)
Definition success_status (rt : route) : Z :=
  match rt with
  | POST_root => 201
  | _ => 200
  end.

(** X1. A response is sent exactly when the handler completes
    normally: then it is one object with the single key of the route
    (company, companies or deleted), with status 201 on POST / and 200
    elsewhere; when the handler fails, nothing has been sent and the
    status has not been touched. *)
Theorem response_sent_exactly_on_success
    {DB} (C : Collaborators DB) (rt : route) (rq : Request) (db : DB) :
  let r := serve C rt rq db in
  match outcome r with
  | Normal _ =>
      exists v, res (final r)
                = mkResponse (success_status rt) (Some (JObj {[ envelope_key rt := v ]}))
  | Throw _ => res (final r) = freshResponse
  end.
Proof.
  intros r. subst r.
  route_cases C rq db rt ltac:(cbn -[lookup insert singletonM]; try done; by eexists).
Qed.

(** The one persistence call a route can make, with the arguments it
    takes from the request. *)
Definition own_call (rt : route) (rq : Request) : event :=
  match rt with
  | POST_root => Company_create (body rq)
  | GET_root => Company_findAll (JObj (coerced (query rq)))
  | GET_handle => Company_get (handle rq)
  | PATCH_handle => Company_update (handle rq) (body rq)
  | DELETE_handle => Company_remove (handle rq)
  end.

(** X2. Each route reaches the model through its own method only, with
    the body and the path parameter of the request as they came (the
    coerced query for the list): the persistence calls of a run are
    either that single call or none, and with none the handler has
    failed and the store is as it was.  So no route answers without
    having asked the model. *)
Theorem persistence_calls_are_the_routes_own
    {DB} (C : Collaborators DB) (rt : route) (rq : Request) (db : DB) :
  let r := serve C rt rq db in
  List.filter is_persistence (events r) = [own_call rt rq]
  \/ (List.filter is_persistence (events r) = []
      /\ store r = db
      /\ exists err, outcome r = Throw err).
Proof.
  intros r. subst r. unfold events.
  route_cases C rq db rt
    ltac:(cbn -[lookup insert singletonM];
          first [ left; reflexivity | right; split_and!; [done | done | by eexists] ]).
Qed.

(** The schema a route validates against, if it validates. *)
Definition route_schema (rt : route) : option schema :=
  match rt with
  | POST_root => Some companyNewSchema
  | GET_root => Some companySearchFiltersSchema
  | PATCH_handle => Some companyUpdateSchema
  | GET_handle | DELETE_handle => None
  end.

(** The data a persistence call carries, when it carries data. *)
Definition payload (e : event) : option jsval :=
  match e with
  | Company_create data => Some data
  | Company_findAll filters => Some filters
  | Company_update _ data => Some data
  | _ => None
  end.

(** The instance and schema of a validation that found the instance
    valid. *)
Definition accepted_by_validator (x : entry) : option (jsval * schema) :=
  match x with
  | Called e a =>
      match e return error + answer e -> option (jsval * schema) with
      | jsonschema_validate instance s => fun a =>
          match a with
          | inr v => if valid v then Some (instance, s) else None
          | inl _ => None
          end
      | _ => fun _ => None
      end a
  end.

(** X3. On the three validating routes (POST /, GET /, PATCH /:handle)
    the model only ever receives data the validator has just accepted:
    the call before a persistence call is the validation of that very
    data against the schema of the route, and its verdict was valid. *)
Theorem persistence_receives_validated_data
    {DB} (C : Collaborators DB) (rt : route) (rq : Request) (db : DB)
    (s : schema) (i : nat) (x : entry) :
  route_schema rt = Some s ->
  calls (serve C rt rq db) !! i = Some x ->
  is_persistence (ev x) = true ->
  exists j y data,
    i = S j
    /\ calls (serve C rt rq db) !! j = Some y
    /\ accepted_by_validator y = Some (data, s)
    /\ payload (ev x) = Some data.
Proof.
  revert s i x.
  route_cases C rq db rt
    ltac:(cbn -[lookup insert singletonM];
          let s := fresh "s" in let i := fresh "i" in let x := fresh "x" in
          let Hs := fresh "Hs" in let Hi := fresh "Hi" in let Hp := fresh "Hp" in
          intros s i x Hs Hi Hp; try discriminate Hs; injection Hs as <-;
          pick_index i Hi; try discriminate Hp;
          (eexists _, _, _; split_and!;
           [ reflexivity | reflexivity | cbn; rewrite V; reflexivity | reflexivity ])).
Qed.

Lemma persistence_receives_validated_data_witness :
  exists j y,
    2%nat = S j
    /\ calls (serve sampleCollaborators GET_root (mkRequest ∅ JNull "" None) ∅) !! j
       = Some y
    /\ accepted_by_validator y = Some (JObj ∅, companySearchFiltersSchema).
Proof.
  assert (calls (serve sampleCollaborators GET_root (mkRequest ∅ JNull "" None) ∅)
            !! 2%nat
          = Some (Called (Company_findAll (JObj ∅)) (inr (JArr [])))) as Hcall
    by (vm_compute; reflexivity).
  destruct (persistence_receives_validated_data sampleCollaborators GET_root
              (mkRequest ∅ JNull "" None) ∅ companySearchFiltersSchema 2
              (Called (Company_findAll (JObj ∅)) (inr (JArr [])))
              eq_refl Hcall eq_refl)
    as (j & y & data & Hj & Hy & Ha & Hp).
  exists j, y. split; [exact Hj|]. split; [exact Hy|].
  injection Hp as <-. exact Ha.
Defined.

Lemma dom_coerce k (q : gmap string jsval) : dom (coerce k q) = dom q.
Proof.
  unfold coerce. destruct (truthy (q !! k)) eqn:Ht; [|done].
  rewrite dom_insert_L. apply subseteq_union_1_L, singleton_subseteq_l, elem_of_dom.
  destruct (q !! k); [by eexists|discriminate Ht].
Qed.

Lemma coerce_bound_value k (q : gmap string jsval) :
  coerce k q !! k = q !! k
  \/ (truthy (q !! k) = true
      /\ coerce k q !! k = Some (JNumber (parseInt_prop (q !! k)))).
Proof.
  destruct (truthy (q !! k)) eqn:Ht.
  - right. split; [done|]. by apply coerce_same_truthy.
  - left. by rewrite coerce_same_falsy.
Qed.

Lemma request_untouched_off_list
    {DB} (C : Collaborators DB) (rt : route) (rq : Request) (db : DB) :
  rt <> GET_root -> req (final (serve C rt rq db)) = rq.
Proof.
  intros Hne.
  route_cases C rq db rt ltac:(first [reflexivity | by destruct Hne]).
Qed.

(** X4. What a handler leaves of the request.  The body, the path
    parameter and the credentials are never written; off the list
    route the query is not written either.  On the list route no key
    is added to or removed from the query, every key other than
    minEmployees and maxEmployees keeps its value, and a bound either
    keeps its value or, having been truthy, holds the Number that
    [parseInt] gave for it. *)
Theorem request_is_only_coerced
    {DB} (C : Collaborators DB) (rt : route) (rq : Request) (db : DB) :
  let rq' := req (final (serve C rt rq db)) in
  body rq' = body rq
  /\ handle rq' = handle rq
  /\ credentials rq' = credentials rq
  /\ (rt <> GET_root -> rq' = rq)
  /\ dom (query rq') = dom (query rq)
  /\ (forall k, k ∉ bounds -> query rq' !! k = query rq !! k)
  /\ (forall k, k ∈ bounds ->
        query rq' !! k = query rq !! k
        \/ (truthy (query rq !! k) = true
            /\ query rq' !! k = Some (JNumber (parseInt_prop (query rq !! k))))).
Proof.
  intros rq'. subst rq'.
  assert (forall q',
            (q' = coerce "minEmployees" (query rq) \/ q' = coerced (query rq)) ->
            dom q' = dom (query rq)
            /\ (forall k, k ∉ bounds -> q' !! k = query rq !! k)
            /\ (forall k, k ∈ bounds ->
                  q' !! k = query rq !! k
                  \/ (truthy (query rq !! k) = true
                      /\ q' !! k = Some (JNumber (parseInt_prop (query rq !! k)))))) as Hq.
  { intros q' [-> | ->]; split_and!.
    - apply dom_coerce.
    - intros k Hk. apply coerce_other. intros <-. apply Hk, elem_of_bounds. by left.
    - intros k [-> | ->]%elem_of_bounds; [apply coerce_bound_value|].
      left. by apply coerce_other.
    - unfold coerced. by rewrite !dom_coerce.
    - intros k Hk. by apply coerced_other.
    - intros k Hk. destruct (truthy (query rq !! k)) eqn:Ht.
      + right. split; [done|]. by apply coerced_truthy.
      + left. by apply coerced_falsy. }
  destruct rt.
  2: { destruct (coercion_fails "minEmployees" (query rq)) eqn:Hmin;
         [rewrite serve_list_min_fails by done
         |destruct (coercion_fails "maxEmployees" (query rq)) eqn:Hmax;
            [rewrite serve_list_max_fails by done
            |rewrite serve_list_passes by done; unfold list_after_coercion; cbv zeta;
             destruct (valid _); [destruct (fst (findAll C _ db))|]]];
         cbn [final req with_query body handle credentials query];
         (split; [done|]); (split; [done|]); (split; [done|]);
         (split; [intros Hne; by destruct Hne|]);
         apply Hq; tauto. }
  all: rewrite request_untouched_off_list by done;
    split_and!; try done; intros; by left.
Qed.

Definition with_credentials (rq : Request) (cr : option string) : Request :=
  mkRequest (query rq) (body rq) (handle rq) cr.

(** X5. The two read routes (GET / and GET /:handle) are public: the
    credentials of the request, present or not, recognised or not, play
    no part.  With any other credentials the same calls are made with
    the same answers, the same response is sent or the same error
    thrown, and the store ends the same; the gate's check is never
    among the calls. *)
Theorem read_routes_ignore_credentials
    {DB} (C : Collaborators DB) (rt : route) (rq : Request) (db : DB)
    (cr : option string) :
  mutating rt = false ->
  let r := serve C rt rq db in
  let r' := serve C rt (with_credentials rq cr) db in
  outcome r' = outcome r
  /\ res (final r') = res (final r)
  /\ query (req (final r')) = query (req (final r))
  /\ store r' = store r
  /\ calls r' = calls r
  /\ Forall (fun e => forall token, e <> recognize token) (events r).
Proof.
  intros Hm r r'. subst r r'. unfold events. destruct rt; try discriminate Hm.
  - destruct (coercion_fails "minEmployees" (query rq)) eqn:Hmin.
    { rewrite !serve_list_min_fails by done. cbn. by split_and!. }
    destruct (coercion_fails "maxEmployees" (query rq)) eqn:Hmax.
    { rewrite !serve_list_max_fails by done. cbn. by split_and!. }
    rewrite !serve_list_passes by done. unfold list_after_coercion. cbv zeta.
    cbn [query with_credentials].
    destruct (valid _); [destruct (fst (findAll C _ db))|];
      cbn -[lookup insert singletonM]; split_and!; try done;
      repeat (constructor; [discriminate|]); constructor.
  - unfold_route. destruct (get C (handle rq) db) as [[err|company] db'];
      cbn -[lookup insert singletonM]; split_and!; try done;
      repeat (constructor; [discriminate|]); constructor.
Qed.

Lemma read_routes_ignore_credentials_witness :
  let rq := mkRequest {[ "minEmployees" := JStr "5" ]} JNull "" None in
  calls (serve sampleCollaborators GET_root (with_credentials rq (Some "forged")) sampleStore)
  = calls (serve sampleCollaborators GET_root rq sampleStore).
Proof.
  intros rq.
  exact (proj1 (proj2 (proj2 (proj2 (proj2
    (read_routes_ignore_credentials sampleCollaborators GET_root rq sampleStore
       (Some "forged") eq_refl)))))).
Defined.



(** X7. The PATCH handler proper (the function registered after the
    gate), for any validator and any model: an invalid body gives a
    BadRequest with the validator's [stack] strings in their order and
    Company.update is not called; a valid body is handed as it is,
    together with the path parameter, to Company.update, whose record
    is sent under [company] with the status left at 200 and whose error
    is thrown on. *)
Theorem patch_handler_validates_then_updates
    {DB} (C : Collaborators DB) (rq : Request) (db : DB) :
  let r := run C (patch_handler (mkCtx rq freshResponse)) db in
  let v := validate C (body rq) companyUpdateSchema in
  if valid v then
    map ev (calls r) = [jsonschema_validate (body rq) companyUpdateSchema;
                        Company_update (handle rq) (body rq)]
    /\ store r = snd (update C (handle rq) (body rq) db)
    /\ match fst (update C (handle rq) (body rq) db) with
       | inr company =>
           outcome r = Normal tt
           /\ res (final r) = mkResponse 200 (Some (company_payload company))
       | inl err => outcome r = Throw err /\ res (final r) = freshResponse
       end
  else
    outcome r = Throw (BadRequestError (JArr (map (fun e => JStr (stack e)) (errors v))))
    /\ map ev (calls r) = [jsonschema_validate (body rq) companyUpdateSchema]
    /\ res (final r) = freshResponse
    /\ store r = db.
Proof.
  intros r v. subst r v. unfold_route.
  destruct (valid (validate C (body rq) companyUpdateSchema)); step; [|done].
  destruct (update C (handle rq) (body rq) db) as [[err|company] db']; done.
Qed.

(** ** What a route reads of the request *)

(** The two requests agree on what route [rt] reads: the body and the
    credentials for POST /, the query for GET /, the path parameter for
    GET /:handle, the path parameter, the body and the credentials for
    PATCH /:handle, the path parameter and the credentials for
    DELETE /:handle. *)
Definition reads_same (rt : route) (rq rq' : Request) : Prop :=
  match rt with
  | POST_root => body rq = body rq' /\ credentials rq = credentials rq'
  | GET_root => query rq = query rq'
  | GET_handle => handle rq = handle rq'
  | PATCH_handle =>
      handle rq = handle rq' /\ body rq = body rq' /\ credentials rq = credentials rq'
  | DELETE_handle => handle rq = handle rq' /\ credentials rq = credentials rq'
  end.

(** X13. Each route depends only on the parts of the request it reads.
    Two requests that agree on those parts get the same calls with the
    same answers, the same response or the same error, and the same
    store: a body sent with DELETE or GET, a query string sent with
    POST, PATCH, DELETE or GET /:handle, and a path parameter on the
    root routes make no difference. *)
Theorem route_depends_only_on_what_it_reads
    {DB} (C : Collaborators DB) (rt : route) (rq rq' : Request) (db : DB) :
  reads_same rt rq rq' ->
  let r := serve C rt rq db in
  let r' := serve C rt rq' db in
  outcome r' = outcome r
  /\ res (final r') = res (final r)
  /\ store r' = store r
  /\ calls r' = calls r.
Proof.
  intros Hsame r r'. subst r r'.
  destruct rq as [q b h cr], rq' as [q' b' h' cr'].
  destruct rt; cbn [reads_same query body handle credentials] in Hsame.
  - destruct Hsame as [-> ->]. unfold_route.
    destruct cr' as [token|]; [|done]. step.
    destruct (recognizes C token); [|done]. step.
    destruct (valid (validate C b' companyNewSchema)); [|done]. step.
    by destruct (create C b' db) as [[err|company] db'].
  - subst q'.
    destruct (coercion_fails "minEmployees" q) eqn:Hmin.
    { by rewrite !serve_list_min_fails by done. }
    destruct (coercion_fails "maxEmployees" q) eqn:Hmax.
    { by rewrite !serve_list_max_fails by done. }
    rewrite !serve_list_passes by done. unfold list_after_coercion. cbv zeta.
    cbn [query].
    by destruct (valid _); [destruct (fst (findAll C _ db))|].
  - subst h'. unfold_route. by destruct (get C h db) as [[err|company] db'].
  - destruct Hsame as (-> & -> & ->). unfold_route.
    destruct cr' as [token|]; [|done]. step.
    destruct (recognizes C token); [|done]. step.
    destruct (valid (validate C b' companyUpdateSchema)); [|done]. step.
    by destruct (update C h' b' db) as [[err|company] db'].
  - destruct Hsame as (-> & ->). unfold_route.
    destruct cr' as [token|]; [|done]. step.
    destruct (recognizes C token); [|done]. step.
    by destruct (remove C h' db) as [[err|[]] db'].
Qed.

Lemma route_depends_only_on_what_it_reads_witness :
  let rq := mkRequest ∅ JNull "acme" (Some "token-of-u1") in
  let rq' := mkRequest {[ "minEmployees" := JStr "abc" ]} acme "acme" (Some "token-of-u1") in
  calls (serve sampleCollaborators DELETE_handle rq' sampleStore)
  = calls (serve sampleCollaborators DELETE_handle rq sampleStore).
Proof.
  intros rq rq'.
  exact (proj2 (proj2 (proj2
    (route_depends_only_on_what_it_reads sampleCollaborators DELETE_handle rq rq'
       sampleStore (conj eq_refl eq_refl))))).
Defined.



(** ** Further properties of the coercion *)



















Section CoercionOutcomes.
Context {DB : Type} (C : Collaborators DB).


End CoercionOutcomes.











(** *** The [0x] marker *)













